(** * Deployment and domain lifecycle manager (src/deployment_manager.py)

    A shallow embedding of [DeploymentManager], [DomainManager] and the
    [serve_deployed_app] route, with the persisted stores as explicit state.

    Modelling conventions.
    - The directories [base_path/apps], [base_path/static] and
      [base_path/backups] are finite maps from a directory name to the tree
      stored under it; an application identifier names one directory.
    - A tree is a finite map from a relative path, given by its list of
      components, to a node (directory or regular file).  The keys of the
      request's [files] mapping are such component lists ("src/App.js" is
      ["src"; "App.js"]), every component being a plain name.
    - [json.dump] of a deployment record is kept as the record itself
      ([Metadata]); text written from the request is [Text].
    - [datetime.now()] and [uuid.uuid4()] are inputs of the operations.
    - [subprocess.run] is an input of the build: a function from the command,
      the working directory's tree and the timeout to what the process did.
    - Identifiers and path components are plain names (see [plain_name]);
      the theorems about the file system say so in their hypotheses. *)

From stdpp Require Import base strings list gmap fin_maps.

(** ** Data model *)

Abbreviation path := (list string).

(** The dictionary [deployment_config] of [deploy_app], with the keys that
    [_build_react_app] and [update_deployment] add later as options. *)
Record deployment := {
  d_app_id : string;
  d_app_name : string;
  d_app_type : string;
  d_app_dir : string;
  d_deployed_at : string;
  d_status : string;
  d_url : string;
  d_subdomain : string;
  d_files : list path;
  d_success : option bool;
  d_build_output : option string;
  d_static_dir : option string;
  d_updated_at : option string;
  d_backup_created : option string
}.

Inductive content :=
| Text (s : string)
| Metadata (r : deployment).

Inductive node :=
| Dir
| File (c : content).

Abbreviation tree := (gmap (list string) node).

(** One entry of domains.json. *)
Record binding := {
  b_subdomain : option string;
  b_full_domain : option string;
  b_registered_at : option string;
  b_type : option string;
  b_custom_domain : option string;
  b_custom_domain_registered_at : option string;
  b_custom_domain_verified : option bool
}.

(** The persisted stores. *)
Record state := {
  apps : gmap string tree;
  static : gmap string tree;
  backups : gmap string tree;
  domains : gmap string binding
}.

Definition set_apps (f : gmap string tree → gmap string tree) (s : state) : state :=
  {| apps := f (apps s); static := static s; backups := backups s; domains := domains s |}.
Definition set_static (f : gmap string tree → gmap string tree) (s : state) : state :=
  {| apps := apps s; static := f (static s); backups := backups s; domains := domains s |}.
Definition set_backups (f : gmap string tree → gmap string tree) (s : state) : state :=
  {| apps := apps s; static := static s; backups := f (backups s); domains := domains s |}.
Definition set_domains (f : gmap string binding → gmap string binding) (s : state) : state :=
  {| apps := apps s; static := static s; backups := backups s; domains := f (domains s) |}.

Definition empty_state : state :=
  {| apps := ∅; static := ∅; backups := ∅; domains := ∅ |}.

(** The request body of deploy and update: every key may be absent. *)
Record app_data := {
  ad_app_id : option string;
  ad_app_name : option string;
  ad_app_type : option string;
  ad_files : option (list (path * string))
}.

(** ** Exceptions, results and the monad of the operations *)

Inductive exn :=
| FileExistsError
| FileNotFoundError
| NotADirectoryError
| IsADirectoryError
| TimeoutExpired
| OtherError (msg : string).

(** The value of the ['error'] key: a literal of the source, or [str(e)]. *)
Inductive error :=
| Message (s : string)
| Str (e : exn).

(** A returned dictionary: ['success': True] with its payload, or
    ['success': False] with ['error']. *)
Inductive result (A : Type) :=
| Success (a : A)
| Failure (err : error).
Arguments Success {A} a.
Arguments Failure {A} err.

Inductive outcome (A : Type) :=
| Returned (a : A)
| Raised (e : exn).
Arguments Returned {A} a.
Arguments Raised {A} e.

Definition io (A : Type) : Type := state → outcome A * state.

Definition ret {A} (a : A) : io A := λ s, (Returned a, s).
Definition raise {A} (e : exn) : io A := λ s, (Raised e, s).
Definition bind {A B} (m : io A) (k : A → io B) : io B :=
  λ s, match m s with
       | (Returned a, s') => k a s'
       | (Raised e, s') => (Raised e, s')
       end.
Definition try_except {A} (m : io A) (handler : exn → A) : state → A * state :=
  λ s, match m s with
       | (Returned a, s') => (a, s')
       | (Raised e, s') => (handler e, s')
       end.
Definition get_state : io state := λ s, (Returned s, s).
Definition modify (f : state → state) : io unit := λ s, (Returned tt, f s).

#[global] Instance io_ret : MRet io := @ret.
#[global] Instance io_bind : MBind io := λ A B k m, bind m k.

(** ** File system primitives on one tree *)

Definition dirname (p : path) : path := removelast p.

(** The root of a tree is the directory itself. *)
Definition lookup_node (t : tree) (p : path) : option node :=
  match p with
  | [] => Some Dir
  | _ => t !! p
  end.

Definition path_exists (t : tree) (p : path) : bool :=
  match lookup_node t p with Some _ => true | None => false end.

(** [os.makedirs(pre/rest, exist_ok=True)] below an existing [pre]: missing
    directories are created on the way, a regular file on the way raises, and
    what was created before the error stays. *)
Fixpoint makedirs_from (t : tree) (pre rest : path) : tree * option exn :=
  match rest with
  | [] => (t, None)
  | c :: rest' =>
      let q := pre ++ [c] in
      match t !! q with
      | Some Dir => makedirs_from t q rest'
      | Some (File _) =>
          (t, Some (match rest' with [] => FileExistsError | _ => NotADirectoryError end))
      | None => makedirs_from (<[q := Dir]> t) q rest'
      end
  end.

Definition makedirs (t : tree) (p : path) : tree * option exn := makedirs_from t [] p.

(** [open(p, 'w')] followed by [write]: the parent must be a directory and
    [p] must not be one. *)
Definition open_write (t : tree) (p : path) (c : content) : tree * option exn :=
  match lookup_node t (dirname p) with
  | Some Dir =>
      match lookup_node t p with
      | Some Dir => (t, Some IsADirectoryError)
      | _ => (<[p := File c]> t, None)
      end
  | Some (File _) => (t, Some NotADirectoryError)
  | None => (t, Some FileNotFoundError)
  end.

(** The loop [for file_path, file_content in files.items()] of [deploy_app]. *)
Fixpoint write_files (t : tree) (fs : list (path * string)) : tree * option exn :=
  match fs with
  | [] => (t, None)
  | (p, c) :: fs' =>
      match makedirs t (dirname p) with
      | (t1, Some e) => (t1, Some e)
      | (t1, None) =>
          match open_write t1 p (Text c) with
          | (t2, Some e) => (t2, Some e)
          | (t2, None) => write_files t2 fs'
          end
      end
  end.

Fixpoint strip_prefix (pre p : path) : option path :=
  match pre, p with
  | [], [] => None
  | [], _ => Some p
  | a :: pre', b :: p' => if decide (a = b) then strip_prefix pre' p' else None
  | _ :: _, [] => None
  end.

(** The tree stored under the directory [pre] of [t]. *)
Definition subtree (t : tree) (pre : path) : tree :=
  list_to_map
    (omap (λ kv : path * node, (λ r, (r, kv.2)) <$> strip_prefix pre kv.1)
          (map_to_list t)).

(** ** Paths of the stores *)

Definition base_path : string := "/home/ubuntu/sebaircode-deployments".
Definition base_domain : string := "sebaircode.com".

(** [os.path.join] of a directory and a plain name. *)
Definition join (a b : string) : string := a +:+ "/" +:+ b.

Definition app_dir_of (app_id : string) : string := join (join base_path "apps") app_id.
Definition static_dir_of (app_id : string) : string := join (join base_path "static") app_id.
Definition backup_path_of (backup_filename : string) : string :=
  join (join base_path "backups") backup_filename.

Definition deployment_json : path := ["deployment.json"].
Definition index_html : path := ["index.html"].

(** ** File system primitives on the stores *)

Definition lift {A} (f : state → A * state) : io A :=
  λ s, let '(a, s') := f s in (Returned a, s').

(** [os.path.exists(app_dir)] and [os.path.exists(static_dir)]. *)
Definition exists_app (app_id : string) : io bool :=
  λ s, (Returned (match apps s !! app_id with Some _ => true | None => false end), s).
Definition exists_static (app_id : string) : io bool :=
  λ s, (Returned (match static s !! app_id with Some _ => true | None => false end), s).

(** [os.path.exists(os.path.join(app_dir, ...))]. *)
Definition exists_in_app (app_id : string) (p : path) : io bool :=
  λ s, (Returned (match apps s !! app_id with
                  | Some t => path_exists t p
                  | None => false
                  end), s).

(** [shutil.rmtree(app_dir)] and [shutil.rmtree(static_dir)]. *)
Definition rmtree_app (app_id : string) : io unit := modify (set_apps (delete app_id)).
Definition rmtree_static (app_id : string) : io unit := modify (set_static (delete app_id)).

(** [os.makedirs(app_dir, exist_ok=True)]. *)
Definition makedirs_app (app_id : string) : io unit :=
  λ s, match apps s !! app_id with
       | Some _ => (Returned tt, s)
       | None => (Returned tt, set_apps (<[app_id := ∅]>) s)
       end.

(** A write below [app_dir]: what was written before an error stays. *)
Definition in_app_dir (app_id : string) (f : tree → tree * option exn) : io unit :=
  λ s, match apps s !! app_id with
       | None => (Raised FileNotFoundError, s)
       | Some t =>
           let '(t', r) := f t in
           (match r with None => Returned tt | Some e => Raised e end,
            set_apps (<[app_id := t']>) s)
       end.

(** The source of a [shutil.copytree]: a directory of [t], else an error. *)
Definition read_dir (t : tree) (p : path) : outcome tree :=
  match lookup_node t p with
  | Some Dir => Returned (subtree t p)
  | Some (File _) => Raised NotADirectoryError
  | None => Raised FileNotFoundError
  end.

Definition app_tree (app_id : string) (s : state) : outcome tree :=
  match apps s !! app_id with
  | Some t => Returned t
  | None => Raised FileNotFoundError
  end.

(** [shutil.copytree(src, dst)]: the source is listed first, then the
    destination is created, which fails when it exists. *)
Definition copytree (src : outcome tree) (dst : option tree) : outcome tree :=
  match src with
  | Raised e => Raised e
  | Returned t =>
      match dst with
      | Some _ => Raised FileExistsError
      | None => Returned t
      end
  end.

Definition copytree_to_static (src : state → outcome tree) (app_id : string) : io unit :=
  λ s, match copytree (src s) (static s !! app_id) with
       | Returned t => (Returned tt, set_static (<[app_id := t]>) s)
       | Raised e => (Raised e, s)
       end.

Definition copytree_to_backups (src : state → outcome tree) (name : string) : io unit :=
  λ s, match copytree (src s) (backups s !! name) with
       | Returned t => (Returned tt, set_backups (<[name := t]>) s)
       | Raised e => (Raised e, s)
       end.

Definition build_dir_tree (app_id : string) (p : path) (s : state) : outcome tree :=
  match apps s !! app_id with
  | Some t => read_dir t p
  | None => Raised FileNotFoundError
  end.

(** ** DeploymentManager *)

Record completed_process := {
  returncode : Z;
  stdout : string;
  stderr : string
}.

(** The success dictionary of [_build_react_app]. *)
Record build_success := {
  build_output : string;
  static_dir : string
}.

(** The success dictionary of [backup_deployment]. *)
Record backup_info := {
  backup_path : string;
  backup_filename : string;
  created_at : string
}.

(** [deployment_config.update(build_result)]. *)
Definition update_with_build (cfg : deployment) (b : build_success) : deployment :=
  {| d_app_id := d_app_id cfg; d_app_name := d_app_name cfg;
     d_app_type := d_app_type cfg; d_app_dir := d_app_dir cfg;
     d_deployed_at := d_deployed_at cfg; d_status := d_status cfg;
     d_url := d_url cfg; d_subdomain := d_subdomain cfg; d_files := d_files cfg;
     d_success := Some true;
     d_build_output := Some (build_output b);
     d_static_dir := Some (static_dir b);
     d_updated_at := d_updated_at cfg; d_backup_created := d_backup_created cfg |}.

(** The two assignments of [update_deployment] on [result['deployment']]. *)
Definition stamp_update (cfg : deployment) (updated_at backup_created : string) : deployment :=
  {| d_app_id := d_app_id cfg; d_app_name := d_app_name cfg;
     d_app_type := d_app_type cfg; d_app_dir := d_app_dir cfg;
     d_deployed_at := d_deployed_at cfg; d_status := d_status cfg;
     d_url := d_url cfg; d_subdomain := d_subdomain cfg; d_files := d_files cfg;
     d_success := d_success cfg;
     d_build_output := d_build_output cfg;
     d_static_dir := d_static_dir cfg;
     d_updated_at := Some updated_at; d_backup_created := Some backup_created |}.

(** [app_data.get('app_id') or str(uuid.uuid4())]: an absent or empty
    identifier is replaced by a fresh one. *)
Definition app_id_of (data : app_data) (uuid4 : string) : string :=
  match ad_app_id data with
  | Some i => if decide (i = "") then uuid4 else i
  | None => uuid4
  end.

(** The dictionary [deployment_config] that [deploy_app] builds. *)
Definition deployment_config_of (data : app_data) (uuid4 now : string) : deployment :=
  let app_id := app_id_of data uuid4 in
  {| d_app_id := app_id;
     d_app_name := default ("app-" +:+ app_id) (ad_app_name data);
     d_app_type := default "static" (ad_app_type data);
     d_app_dir := app_dir_of app_id;
     d_deployed_at := now;
     d_status := "deployed";
     d_url := "https://" +:+ app_id +:+ ".sebaircode.com";
     d_subdomain := app_id;
     d_files := (default [] (ad_files data)).*1;
     d_success := None; d_build_output := None; d_static_dir := None;
     d_updated_at := None; d_backup_created := None |}.

Definition _save_deployment_metadata (app_id : string) (metadata : deployment) : io unit :=
  in_app_dir app_id (λ t, open_write t deployment_json (Metadata metadata)).

Definition get_deployment_info (s : state) (app_id : string) : option deployment :=
  match apps s !! app_id with
  | Some t =>
      match t !! deployment_json with
      | Some (File (Metadata r)) => Some r
      | _ => None
      end
  | None => None
  end.

Definition delete_deployment (app_id : string) : state → result string * state :=
  try_except
    (app_dir_exists ← exists_app app_id;
     (if app_dir_exists : bool then rmtree_app app_id else mret tt);;
     static_dir_exists ← exists_static app_id;
     (if static_dir_exists : bool then rmtree_static app_id else mret tt);;
     mret (Success "Deployment deleted successfully"))
    (λ e, Failure (Str e)).

Definition backup_deployment (app_id : string) (stamp now : string)
  : state → result backup_info * state :=
  try_except
    (app_dir_exists ← exists_app app_id;
     if app_dir_exists : bool then
       let backup_filename := app_id +:+ "_backup_" +:+ stamp in
       let backup_path := backup_path_of backup_filename in
       copytree_to_backups (app_tree app_id) backup_filename;;
       mret (Success {| backup_path := backup_path;
                        backup_filename := backup_filename;
                        created_at := now |})
     else mret (Failure (Message "Deployment not found")))
    (λ e, Failure (Str e)).

(** The two [except] clauses of [_build_react_app]. *)
Definition build_except (e : exn) : result build_success :=
  match e with
  | TimeoutExpired => Failure (Message "Build process timed out")
  | _ => Failure (Str e)
  end.

Section Build.

(** [subprocess.run(cmd, cwd=app_dir, capture_output=True, text=True,
    timeout=...)]: what the process returns or raises, and the tree it
    leaves in its working directory. *)
Variable subprocess_run : list string → tree → Z → outcome completed_process * tree.

Definition run (cmd : list string) (app_id : string) (timeout : Z) : io completed_process :=
  λ s, match apps s !! app_id with
       | None => (Raised FileNotFoundError, s)
       | Some t =>
           let '(r, t') := subprocess_run cmd t timeout in
           (r, set_apps (<[app_id := t']>) s)
       end.

Definition _build_react_app (app_id : string) : state → result build_success * state :=
  try_except
    (install_result ← run ["npm"; "install"] app_id 300;
     if decide (returncode install_result ≠ 0%Z) then
       mret (Failure (Message ("Failed to install dependencies: " +:+ stderr install_result)))
     else
       build_result ← run ["npm"; "run"; "build"] app_id 300;
       if decide (returncode build_result ≠ 0%Z) then
         mret (Failure (Message ("Failed to build app: " +:+ stderr build_result)))
       else
         let built := Success {| build_output := stdout build_result;
                                static_dir := static_dir_of app_id |} in
         static_dir_exists ← exists_static app_id;
         (if static_dir_exists : bool then rmtree_static app_id else mret tt);;
         build_dir_exists ← exists_in_app app_id ["build"];
         if build_dir_exists : bool then
           copytree_to_static (build_dir_tree app_id ["build"]) app_id;;
           mret built
         else
           dist_dir_exists ← exists_in_app app_id ["dist"];
           if dist_dir_exists : bool then
             copytree_to_static (build_dir_tree app_id ["dist"]) app_id;;
             mret built
           else
             mret (Failure (Message "Build directory not found")))
    build_except.

Definition deploy_app (data : app_data) (uuid4 now : string)
  : state → result deployment * state :=
  try_except
    (let app_id := app_id_of data uuid4 in
     let app_type := default "static" (ad_app_type data) in
     let files := default [] (ad_files data) in
     app_dir_exists ← exists_app app_id;
     (if app_dir_exists : bool then rmtree_app app_id else mret tt);;
     makedirs_app app_id;;
     in_app_dir app_id (λ t, write_files t files);;
     let deployment_config := deployment_config_of data uuid4 now in
     _save_deployment_metadata app_id deployment_config;;
     if decide (app_type ∈ ["static"; "simple_website"]) then
       static_dir_exists ← exists_static app_id;
       (if static_dir_exists : bool then rmtree_static app_id else mret tt);;
       copytree_to_static (app_tree app_id) app_id;;
       mret (Success deployment_config)
     else if decide (app_type = "react_app") then
       build_result ← lift (_build_react_app app_id);
       match build_result with
       | Failure err => mret (Failure err)
       | Success b => mret (Success (update_with_build deployment_config b))
       end
     else mret (Success deployment_config))
    (λ e, Failure (Str e)).

(** What [update_deployment] does once the backup has succeeded: the deploy
    with the identifier forced to [app_id], then the stamped record. *)
Definition update_after_backup (app_id : string) (data : app_data) (b : backup_info)
    (uuid4 deploy_now update_now : string) : io (result deployment) :=
  let data' := {| ad_app_id := Some app_id; ad_app_name := ad_app_name data;
                  ad_app_type := ad_app_type data; ad_files := ad_files data |} in
  result ← lift (deploy_app data' uuid4 deploy_now);
  match result with
  | Success cfg =>
      let cfg' := stamp_update cfg update_now (backup_path b) in
      _save_deployment_metadata app_id cfg';;
      mret (Success cfg')
  | Failure err => mret (Failure err)
  end.

Definition update_deployment (app_id : string) (data : app_data)
    (stamp backup_now uuid4 deploy_now update_now : string)
  : state → result deployment * state :=
  try_except
    (s ← get_state;
     match get_deployment_info s app_id with
     | None => mret (Failure (Message "Deployment not found"))
     | Some _ =>
         backup_result ← lift (backup_deployment app_id stamp backup_now);
         match backup_result with
         | Failure err => mret (Failure err)
         | Success b => update_after_backup app_id data b uuid4 deploy_now update_now
         end
     end)
    (λ e, Failure (Str e)).

End Build.

(** ** DomainManager *)

(** The loop over [domains.items()] of [register_subdomain]:
    [domain_info.get('subdomain') == subdomain] for some entry. *)
Definition subdomain_taken (ds : gmap string binding) (subdomain : string) : bool :=
  existsb (λ kv : string * binding, bool_decide (b_subdomain kv.2 = Some subdomain))
          (map_to_list ds).

Definition register_subdomain (app_id subdomain : string) (now : string)
  : state → result (string * string) * state :=
  try_except
    (s ← get_state;
     if subdomain_taken (domains s) subdomain then
       mret (Failure (Message "Subdomain already taken"))
     else
       let full_domain := subdomain +:+ "." +:+ base_domain in
       modify (set_domains (<[app_id :=
         {| b_subdomain := Some subdomain;
            b_full_domain := Some full_domain;
            b_registered_at := Some now;
            b_type := Some "subdomain";
            b_custom_domain := None;
            b_custom_domain_registered_at := None;
            b_custom_domain_verified := None |}]>));;
       mret (Success (full_domain, subdomain)))
    (λ e, Failure (Str e)).

Definition empty_binding : binding :=
  {| b_subdomain := None; b_full_domain := None; b_registered_at := None;
     b_type := None; b_custom_domain := None;
     b_custom_domain_registered_at := None; b_custom_domain_verified := None |}.

(** The CNAME instructions returned by [register_custom_domain]. *)
Record dns_instructions := {
  dns_type : string;
  dns_name : string;
  dns_value : string
}.

Definition register_custom_domain (app_id custom_domain : string) (now : string)
  : state → result dns_instructions * state :=
  try_except
    (s ← get_state;
     let old := default empty_binding (domains s !! app_id) in
     modify (set_domains (<[app_id :=
       {| b_subdomain := b_subdomain old;
          b_full_domain := b_full_domain old;
          b_registered_at := b_registered_at old;
          b_type := b_type old;
          b_custom_domain := Some custom_domain;
          b_custom_domain_registered_at := Some now;
          b_custom_domain_verified := Some false |}]>));;
     mret (Success {| dns_type := "CNAME"; dns_name := custom_domain;
                      dns_value := app_id +:+ "." +:+ base_domain |}))
    (λ e, Failure (Str e)).

Definition get_domain_info (s : state) (app_id : string) : option binding :=
  domains s !! app_id.

(** ** Routes *)

Inductive response :=
| SendFile (c : content)
| NotFound (msg : string)
| ServerError (e : exn).

(** [send_file(file_path)]: opening a directory raises. *)
Definition send_file (t : tree) (p : path) : response :=
  match lookup_node t p with
  | Some (File c) => SendFile c
  | Some Dir => ServerError IsADirectoryError
  | None => ServerError FileNotFoundError
  end.

Definition serve_deployed_app (s : state) (app_id : string) (filename : path) : response :=
  match static s !! app_id with
  | None => NotFound "App not found"
  | Some t =>
      if negb (path_exists t filename) then
        if path_exists t index_html then send_file t index_html
        else NotFound "File not found"
      else send_file t filename
  end.

Section Routes.

Variable subprocess_run : list string → tree → Z → outcome completed_process * tree.

(** POST /deploy: the default subdomain is registered after a successful
    deploy; its failure is not reported. *)
Definition deploy_application (data : app_data) (uuid4 now domain_now : string)
  : state → result (deployment * option string) * state :=
  λ s, match deploy_app subprocess_run data uuid4 now s with
       | (Success cfg, s1) =>
           match register_subdomain (d_app_id cfg) (d_subdomain cfg) domain_now s1 with
           | (Success (domain, _), s2) => (Success (cfg, Some domain), s2)
           | (Failure _, s2) => (Success (cfg, None), s2)
           end
       | (Failure err, s1) => (Failure err, s1)
       end.

End Routes.

(** ** Listing, and the routes that wrap the managers

    The module-level route functions carry the names of the methods they
    call; here they take the suffix [_route]. *)

(** [DeploymentManager.list_deployments]: the names under apps/ are taken in
    the order in which the store enumerates them ([os.listdir] promises no
    order); a name without a readable record is skipped. *)
Definition list_deployments (s : state) : list deployment :=
  omap (get_deployment_info s) (map_to_list (apps s)).*1.

(** The truth value of a binding dictionary: false when it has no key. *)
Definition binding_truthy (b : binding) : bool :=
  match b_subdomain b, b_full_domain b, b_registered_at b, b_type b,
        b_custom_domain b, b_custom_domain_registered_at b,
        b_custom_domain_verified b with
  | None, None, None, None, None, None, None => false
  | _, _, _, _, _, _, _ => true
  end.

(** [domain_manager.get_domain_info(...)] under [if domain_info:]. *)
Definition domain_info_of (s : state) (app_id : string) : option binding :=
  match get_domain_info s app_id with
  | Some b => if binding_truthy b then Some b else None
  | None => None
  end.

(** A JSON response: the status code and the body. *)
Record http (A : Type) := { status : nat; body : A }.
Arguments status {A} _.
Arguments body {A} _.

(** GET /info/<app_id>: the record, with ['domain_info'] when there is one. *)
Definition get_deployment_info_route (s : state) (app_id : string)
  : http (result (deployment * option binding)) :=
  match get_deployment_info s app_id with
  | Some deployment_info =>
      {| status := 200; body := Success (deployment_info, domain_info_of s app_id) |}
  | None => {| status := 404; body := Failure (Message "Deployment not found") |}
  end.

(** GET /list: every record, with the ['domain_info'] of its own ['app_id']. *)
Definition list_deployments_route (s : state)
  : http (result (list (deployment * option binding))) :=
  {| status := 200;
     body := Success ((λ deployment, (deployment, domain_info_of s (d_app_id deployment)))
                        <$> list_deployments s) |}.

(** [not x] for a value read with [data.get]: absent or empty. *)
Definition missing (x : option string) : bool :=
  match x with
  | Some v => bool_decide (v = "")
  | None => true
  end.

(** POST /domain/subdomain. *)
Definition register_subdomain_route (app_id subdomain : option string) (now : string)
  : state → http (result (string * string)) * state :=
  λ s, if missing app_id || missing subdomain then
         ({| status := 400;
             body := Failure (Message "app_id and subdomain are required") |}, s)
       else
         let '(result, s') :=
           register_subdomain (default "" app_id) (default "" subdomain) now s in
         ({| status := 200; body := result |}, s').

(** POST /domain/custom. *)
Definition register_custom_domain_route (app_id custom_domain : option string) (now : string)
  : state → http (result dns_instructions) * state :=
  λ s, if missing app_id || missing custom_domain then
         ({| status := 400;
             body := Failure (Message "app_id and custom_domain are required") |}, s)
       else
         let '(result, s') :=
           register_custom_domain (default "" app_id) (default "" custom_domain) now s in
         ({| status := 200; body := result |}, s').

(** GET /domain/info/<app_id>. *)
Definition get_domain_info_route (s : state) (app_id : string) : http (result binding) :=
  match domain_info_of s app_id with
  | Some domain_info => {| status := 200; body := Success domain_info |}
  | None => {| status := 404; body := Failure (Message "Domain not found") |}
  end.

(** At most one binding holds a given subdomain value. *)
Definition subdomains_unique (ds : gmap string binding) : Prop :=
  ∀ id1 id2 b1 b2 subdomain,
    ds !! id1 = Some b1 → ds !! id2 = Some b2 →
    b_subdomain b1 = Some subdomain → b_subdomain b2 = Some subdomain →
    id1 = id2.

(** Every node of a tree lies below directories only. *)
Definition well_formed (t : tree) : Prop :=
  ∀ p q k n, t !! p = Some n → p = q ++ k → q ≠ [] → k ≠ [] → t !! q = Some Dir.

(** ** The domain of the model

    The stores are keyed by directory names and the trees by lists of path
    components, so the model follows [os.path.join] only where an identifier
    is one plain directory name and where every path component is one: not
    empty, not "." or "..", and without "/".  An identifier such as "a/b" or
    ".." reaches other directories in the source; the theorems about the
    file system take plain names, and a store that holds only plain names,
    as hypotheses. *)

Fixpoint has_slash (n : string) : bool :=
  match n with
  | EmptyString => false
  | String a n' => if String.eqb (String a EmptyString) "/" then true else has_slash n'
  end.

Definition plain_name (n : string) : bool :=
  negb (has_slash n) && negb (String.eqb n "") && negb (String.eqb n ".")
  && negb (String.eqb n "..").

Definition plain_path (p : path) : bool := forallb plain_name p.

Definition plain_tree (t : tree) : bool :=
  forallb (λ kv : path * node, plain_path kv.1) (map_to_list t).

Definition plain_dir (m : gmap string tree) : bool :=
  forallb (λ kv : string * tree, plain_name kv.1 && plain_tree kv.2) (map_to_list m).

(** deployment.json in a source directory holds what
    [_save_deployment_metadata] wrote there, when it is a file. *)
Definition record_written (t : tree) : bool :=
  match t !! deployment_json with
  | Some (File (Text _)) => false
  | _ => true
  end.

Definition plain_store (s : state) : bool :=
  plain_dir (apps s) && plain_dir (static s) && plain_dir (backups s)
  && forallb (λ kv : string * tree, record_written kv.2) (map_to_list (apps s)).

(** A request in the domain of the model: the identifier it deploys under
    and every component of every path of its mapping are plain names. *)
Definition plain_data (data : app_data) (uuid4 : string) : bool :=
  plain_name (app_id_of data uuid4)
  && forallb (λ kv : path * string, plain_path kv.1) (default [] (ad_files data)).

(** ** Example inputs *)

(** A build tool that is not installed: [subprocess.run] raises. *)
Definition npm_missing : list string → tree → Z → outcome completed_process * tree :=
  λ _ t _, (Raised (OtherError "[Errno 2] No such file or directory: 'npm'"), t).

(** A build tool whose every step exits with status 1. *)
Definition npm_failing : list string → tree → Z → outcome completed_process * tree :=
  λ _ t _, (Returned {| returncode := 1; stdout := ""; stderr := "npm ERR!" |}, t).

(** A build tool whose steps exit with status 0 and write nothing. *)
Definition npm_silent : list string → tree → Z → outcome completed_process * tree :=
  λ _ t _, (Returned {| returncode := 0; stdout := "ok"; stderr := "" |}, t).

(** A build tool whose build step writes [dist/index.html]. *)
Definition npm_vite : list string → tree → Z → outcome completed_process * tree :=
  λ cmd t _,
    (Returned {| returncode := 0; stdout := "ok"; stderr := "" |},
     if decide (cmd = ["npm"; "run"; "build"])
     then <[["dist"; "index.html"] := File (Text "<div id=root>")]> (<[["dist"] := Dir]> t)
     else t).

Definition static_site (files : list (path * string)) : app_data :=
  {| ad_app_id := Some "x1"; ad_app_name := None;
     ad_app_type := Some "static"; ad_files := Some files |}.

Definition react_site : app_data :=
  {| ad_app_id := Some "x1"; ad_app_name := None;
     ad_app_type := Some "react_app";
     ad_files := Some [(["package.json"], "{}"); (["src"; "App.js"], "export default 1")] |}.

(** The round-trip example: one static application with a root document. *)
Definition x1_deployed : state :=
  (deploy_app npm_missing (static_site [(index_html, "<h1>Hi</h1>")]) "u" "t0" empty_state).2.

(** The same application deployed through POST /deploy, which registers its
    default subdomain. *)
Definition x1_registered : state :=
  (deploy_application npm_missing (static_site [(index_html, "<h1>Hi</h1>")])
     "u" "t0" "t0" empty_state).2.

(** A static application with a file in a subdirectory. *)
Definition site_with_assets : state :=
  (deploy_app npm_missing
     (static_site [(index_html, "<h1>Hi</h1>"); (["assets"; "app.js"], "console.log(1)")])
     "u" "t0" empty_state).2.

(** The same application after POST /backup in the second 2024-01-01 00:00:00. *)
Definition x1_backed_up : state :=
  (backup_deployment "x1" "20240101_000000" "2024-01-01T00:00:00" x1_deployed).2.

(** The sources of a React application whose install step failed. *)
Definition x1_sources : state :=
  (deploy_app npm_failing react_site "u" "t0" empty_state).2.

(** The sources of a React application that ships a script named "build". *)
Definition sources_with_build_file : state :=
  (deploy_app npm_failing
     {| ad_app_id := Some "x1"; ad_app_name := None; ad_app_type := Some "react_app";
        ad_files := Some [(["package.json"], "{}"); (["build"], "#!/bin/sh")] |}
     "u" "t0" empty_state).2.

(** The application "x1" deployed with index.html and deployed again with
    about.html only. *)
Definition x1_redeployed : state :=
  (deploy_app npm_missing (static_site [(["about.html"], "v2")]) "u" "t1"
     (deploy_app npm_missing (static_site [(index_html, "v1")]) "u" "t0"
        empty_state).2).2.

(** A mapping in which "assets" is both a file and a directory. *)
Definition conflicting_files : list (path * string) :=
  [(index_html, "<h1>v2</h1>"); (["assets"], "x"); (["assets"; "app.js"], "y")].

(** * Properties *)

(** ** Domain Registry *)

Lemma subdomain_taken_spec (ds : gmap string binding) (subdomain : string) :
  subdomain_taken ds subdomain = true
  ↔ ∃ id b, ds !! id = Some b ∧ b_subdomain b = Some subdomain.
Proof.
  unfold subdomain_taken. rewrite existsb_exists. split.
  - intros ([id b] & Hin & Hb). exists id, b. split.
    + apply elem_of_map_to_list. by apply list_elem_of_In.
    + by apply bool_decide_eq_true in Hb.
  - intros (id & b & Hl & Hb). exists (id, b). split.
    + apply list_elem_of_In. by apply elem_of_map_to_list.
    + by apply bool_decide_eq_true.
Qed.

Lemma subdomain_taken_false (ds : gmap string binding) (subdomain : string) :
  subdomain_taken ds subdomain = false
  ↔ ¬ ∃ id b, ds !! id = Some b ∧ b_subdomain b = Some subdomain.
Proof.
  rewrite <- subdomain_taken_spec. destruct (subdomain_taken ds subdomain); naive_solver.
Qed.

Lemma register_subdomain_eq app_id subdomain now s :
  register_subdomain app_id subdomain now s =
  if subdomain_taken (domains s) subdomain
  then (Failure (Message "Subdomain already taken"), s)
  else (Success (subdomain +:+ "." +:+ base_domain, subdomain),
        set_domains (<[app_id :=
          {| b_subdomain := Some subdomain;
             b_full_domain := Some (subdomain +:+ "." +:+ base_domain);
             b_registered_at := Some now;
             b_type := Some "subdomain";
             b_custom_domain := None;
             b_custom_domain_registered_at := None;
             b_custom_domain_verified := None |}]>) s).
Proof.
  unfold register_subdomain, try_except, get_state, mbind, io_bind, bind. simpl.
  by destruct (subdomain_taken (domains s) subdomain).
Qed.

(** C1, as the code has it: [register_subdomain] fails with "Subdomain
    already taken" exactly when some binding of the store, the caller's own
    included, holds that exact subdomain string.  So re-registering the
    subdomain of one's own binding fails and changes nothing, and when no
    binding holds the string, the first of two registrations of it succeeds
    and the second, by whichever application, fails. *)
Theorem register_subdomain_taken_iff (s : state) (app_id subdomain now : string) :
  ((register_subdomain app_id subdomain now s).1 = Failure (Message "Subdomain already taken")
   ↔ ∃ id b, domains s !! id = Some b ∧ b_subdomain b = Some subdomain)
  ∧ ((∃ b, domains s !! app_id = Some b ∧ b_subdomain b = Some subdomain) →
     register_subdomain app_id subdomain now s
     = (Failure (Message "Subdomain already taken"), s))
  ∧ ((¬ ∃ id b, domains s !! id = Some b ∧ b_subdomain b = Some subdomain) →
     ∀ app_id2 now2, ∃ s1,
       register_subdomain app_id subdomain now s
       = (Success (subdomain +:+ "." +:+ base_domain, subdomain), s1)
       ∧ register_subdomain app_id2 subdomain now2 s1
         = (Failure (Message "Subdomain already taken"), s1)).
Proof.
  split; [|split].
  - rewrite register_subdomain_eq, <- subdomain_taken_spec.
    by destruct (subdomain_taken (domains s) subdomain).
  - intros (b & Hb & Hsub). rewrite register_subdomain_eq.
    assert (subdomain_taken (domains s) subdomain = true) as ->; [|done].
    apply subdomain_taken_spec. eauto.
  - intros Hfree app_id2 now2. apply subdomain_taken_false in Hfree.
    eexists. rewrite register_subdomain_eq, Hfree. split; [done|].
    rewrite register_subdomain_eq.
    match goal with |- (if ?b then _ else _) = _ => assert (b = true) as ->; [|done] end.
    apply subdomain_taken_spec. eexists app_id, _. simpl.
    split; [apply lookup_insert_eq|done].
Qed.

Lemma register_subdomain_taken_iff_witness :
  ∃ s1,
    register_subdomain "a" "shop" "t1" empty_state
    = (Success ("shop.sebaircode.com", "shop"), s1)
    ∧ register_subdomain "b" "shop" "t2" s1
      = (Failure (Message "Subdomain already taken"), s1).
Proof.
  apply (proj2 (proj2 (register_subdomain_taken_iff empty_state "a" "shop" "t1"))).
  intros (id & b & Hl & _). simpl in Hl. by rewrite lookup_empty in Hl.
Defined.

(** C1 as stated fails: the application that holds "shop" registers "shop"
    again and is refused, although no other application holds it. *)
Lemma register_subdomain_own_refused :
  let s := (register_subdomain "a" "shop" "t1" empty_state).2 in
  (register_subdomain "a" "shop" "t2" s).1 = Failure (Message "Subdomain already taken")
  ∧ ¬ ∃ id b, id ≠ "a" ∧ domains s !! id = Some b ∧ b_subdomain b = Some "shop".
Proof.
  intros s. split; [by vm_compute|].
  intros (id & b & Hne & Hl & _). subst s.
  rewrite register_subdomain_eq in Hl.
  change (subdomain_taken (domains empty_state) "shop") with false in Hl. simpl in Hl.
  rewrite lookup_insert_ne in Hl by done. by rewrite lookup_empty in Hl.
Qed.

(** C10: a successful [register_subdomain] stores a binding made of the four
    subdomain keys only; the custom-domain keys that [register_custom_domain]
    had set for the application are gone. *)
Theorem register_subdomain_erases_custom_domain
    (s s' : state) (app_id subdomain now : string) (r : string * string) :
  register_subdomain app_id subdomain now s = (Success r, s') →
  get_domain_info s' app_id
  = Some {| b_subdomain := Some subdomain;
            b_full_domain := Some (subdomain +:+ "." +:+ base_domain);
            b_registered_at := Some now;
            b_type := Some "subdomain";
            b_custom_domain := None;
            b_custom_domain_registered_at := None;
            b_custom_domain_verified := None |}.
Proof.
  rewrite register_subdomain_eq.
  destruct (subdomain_taken (domains s) subdomain); [done|].
  intros [= _ <-]. unfold get_domain_info. simpl. apply lookup_insert_eq.
Qed.

Lemma register_subdomain_erases_custom_domain_witness :
  let s := (register_custom_domain "a" "www.example.org" "t0" empty_state).2 in
  (get_domain_info s "a" ≫= b_custom_domain) = Some "www.example.org"
  ∧ (get_domain_info (register_subdomain "a" "shop" "t1" s).2 "a" ≫= b_custom_domain) = None.
Proof.
  intros s. split; [by vm_compute|].
  rewrite (register_subdomain_erases_custom_domain s _ "a" "shop" "t1"
             ("shop.sebaircode.com", "shop")); [done|].
  by vm_compute.
Defined.

(** ** Delete *)

Ltac unfold_io :=
  unfold try_except, mbind, io_bind, bind, mret, io_ret, ret, raise, modify,
    get_state, lift, exists_app, exists_static, exists_in_app, rmtree_app,
    rmtree_static, makedirs_app, in_app_dir, copytree_to_static,
    copytree_to_backups, copytree, app_tree.

Lemma serve_unpublished (s : state) (app_id : string) (filename : path) :
  static s !! app_id = None →
  serve_deployed_app s app_id filename = NotFound "App not found".
Proof. intros H. unfold serve_deployed_app. by rewrite H. Qed.

Lemma get_deployment_info_absent (s : state) (app_id : string) :
  apps s !! app_id = None → get_deployment_info s app_id = None.
Proof. intros H. unfold get_deployment_info. by rewrite H. Qed.




(** ** Static server *)




(** ** File Tree Writer *)

Lemma makedirs_from_keeps (t t' : tree) (pre rest : path) (r : option exn) (q : path) (n : node) :
  makedirs_from t pre rest = (t', r) → t !! q = Some n → t' !! q = Some n.
Proof.
  revert t pre. induction rest as [|c rest IH]; intros t pre; simpl.
  - by intros [= <- _].
  - destruct (t !! (pre ++ [c])) as [[|c0]|] eqn:Hq.
    + apply IH.
    + by intros [= <- _].
    + intros Hm Hl. eapply IH; [done|].
      rewrite lookup_insert_ne; [done|]. intros <-. congruence.
Qed.

Lemma makedirs_from_new (t t' : tree) (pre rest : path) (r : option exn) (q : path) (n : node) :
  makedirs_from t pre rest = (t', r) → t' !! q = Some n →
  t !! q = Some n ∨ (n = Dir ∧ ∃ k, k ≠ [] ∧ k `prefix_of` rest ∧ q = pre ++ k).
Proof.
  revert t pre. induction rest as [|c rest IH]; intros t pre; simpl.
  - intros [= <- _]. by left.
  - destruct (t !! (pre ++ [c])) as [[|c0]|] eqn:Hq.
    + intros Hm Hl. destruct (IH _ _ Hm Hl) as [?|(-> & k & Hk & Hpre & ->)]; [by left|].
      right. split; [done|]. exists (c :: k). split; [done|].
      split; [by apply prefix_cons|]. by rewrite <- app_assoc.
    + intros [= <- _]. by left.
    + intros Hm Hl. destruct (IH _ _ Hm Hl) as [Hins|(-> & k & Hk & Hpre & ->)].
      * apply lookup_insert_Some in Hins as [[<- <-]|[_ ?]]; [|by left].
        right. split; [done|]. exists [c]. split; [done|].
        split; [|done]. apply prefix_cons, prefix_nil.
      * right. split; [done|]. exists (c :: k). split; [done|].
        split; [by apply prefix_cons|]. by rewrite <- app_assoc.
Qed.

Lemma makedirs_from_made (t t' : tree) (pre rest : path) :
  makedirs_from t pre rest = (t', None) → rest ≠ [] → t' !! (pre ++ rest) = Some Dir.
Proof.
  revert t pre. induction rest as [|c rest IH]; intros t pre; simpl; [done|].
  intros Hm _. destruct rest as [|c' rest].
  - simpl in Hm. destruct (t !! (pre ++ [c])) as [[|c0]|] eqn:Hq.
    + by injection Hm as <-.
    + done.
    + injection Hm as <-. apply lookup_insert_eq.
  - rewrite (cons_middle c pre), app_assoc.
    destruct (t !! (pre ++ [c])) as [[|c0]|] eqn:Hq; [|done|]; by apply IH in Hm.
Qed.

Lemma makedirs_parent (t t' : tree) (p : path) :
  makedirs t p = (t', None) → lookup_node t' p = Some Dir.
Proof.
  intros Hm. destruct p as [|c p]; [done|].
  by apply (makedirs_from_made t t' [] (c :: p)).
Qed.

Lemma open_write_ok (t t' : tree) (p : path) (c : content) :
  open_write t p c = (t', None) →
  p ≠ [] ∧ t !! p ≠ Some Dir ∧ t' = <[p := File c]> t.
Proof.
  unfold open_write.
  destruct (lookup_node t (dirname p)) as [[|?]|]; [|done..].
  destruct p as [|a p]; [done|]. simpl.
  destruct (t !! (a :: p)) as [[|?]|]; [done|..]; by intros [= <-].
Qed.

Lemma open_write_failed (t t' : tree) (p : path) (c : content) (e : exn) :
  open_write t p c = (t', Some e) → t' = t.
Proof.
  unfold open_write.
  destruct (lookup_node t (dirname p)) as [[|?]|]; [|by intros [= <-]..].
  destruct (lookup_node t p) as [[|?]|]; by intros [= <-].
Qed.

Lemma dirname_prefix_proper (p k : path) :
  k ≠ [] → k `prefix_of` dirname p → ∃ k', k' ≠ [] ∧ p = k ++ k'.
Proof.
  intros Hk [k' Hk']. destruct p as [|a p]; [by destruct k|].
  exists (k' ++ [List.last (a :: p) a]). split; [by destruct k'|].
  rewrite app_assoc. unfold dirname in Hk'. rewrite <- Hk'.
  by apply app_removelast_last.
Qed.

Lemma makedirs_dirname_new (t t1 : tree) (p q : path) (e : option exn) (n : node) :
  makedirs t (dirname p) = (t1, e) → t1 !! q = Some n →
  t !! q = Some n ∨ (n = Dir ∧ ∃ k, k ≠ [] ∧ p = q ++ k).
Proof.
  intros Hmk Hl.
  destruct (makedirs_from_new _ _ _ _ _ _ _ Hmk Hl) as [?|(-> & k & Hk & Hpre & ->)];
    [by left|].
  right. split; [done|]. by apply dirname_prefix_proper.
Qed.

(** Every regular file of the written tree was there before or is an entry
    of the mapping; every directory was there before or is a proper prefix
    of a path of the mapping. *)
Lemma write_files_from (fs : list (path * string)) (t t' : tree) (r : option exn)
    (q : path) (n : node) :
  write_files t fs = (t', r) → t' !! q = Some n →
  t !! q = Some n
  ∨ (∃ txt, n = File (Text txt) ∧ (q, txt) ∈ fs)
  ∨ (n = Dir ∧ ∃ p txt k, (p, txt) ∈ fs ∧ k ≠ [] ∧ p = q ++ k).
Proof.
  revert t. induction fs as [|[p txt] fs IH]; intros t; simpl.
  - intros [= <- _]. by left.
  - destruct (makedirs t (dirname p)) as [t1 [e|]] eqn:Hmk.
    + intros [= <- _] Hl.
      destruct (makedirs_dirname_new _ _ _ _ _ _ Hmk Hl) as [?|(-> & k & Hk & ->)];
        [by left|].
      right; right. split; [done|]. exists (q ++ k), txt, k. split; [left|done].
    + destruct (open_write t1 p (Text txt)) as [t2 [e|]] eqn:Hop.
      * intros [= <- _] Hl. apply open_write_failed in Hop as ->.
        destruct (makedirs_dirname_new _ _ _ _ _ _ Hmk Hl) as [?|(-> & k & Hk & ->)];
          [by left|].
        right; right. split; [done|]. exists (q ++ k), txt, k. split; [left|done].
      * intros Hw Hl. apply open_write_ok in Hop as (Hp & _ & ->).
        destruct (IH _ Hw Hl) as [Hins|[(t0 & -> & Hin)|(-> & p' & t0 & k & Hin & Hk & ->)]].
        -- apply lookup_insert_Some in Hins as [[<- <-]|[_ Hl1]].
           { right; left. exists txt. split; [done|left]. }
           destruct (makedirs_dirname_new _ _ _ _ _ _ Hmk Hl1) as [?|(-> & k & Hk & ->)];
             [by left|].
           right; right. split; [done|]. exists (q ++ k), txt, k. split; [left|done].
        -- right; left. exists t0. split; [done|by right].
        -- right; right. split; [done|]. exists (q ++ k), t0, k. split; [by right|done].
Qed.

Lemma write_files_keeps (fs : list (path * string)) (t t' : tree) (q : path) (c : content) :
  write_files t fs = (t', None) → t !! q = Some (File c) → q ∉ fs.*1 →
  t' !! q = Some (File c).
Proof.
  revert t. induction fs as [|[p txt] fs IH]; intros t; simpl.
  - by intros [= <-].
  - destruct (makedirs t (dirname p)) as [t1 [e|]] eqn:Hmk; [done|].
    destruct (open_write t1 p (Text txt)) as [t2 [e|]] eqn:Hop; [done|].
    intros Hw Hl Hq. apply not_elem_of_cons in Hq as [Hqp Hq].
    apply open_write_ok in Hop as (_ & _ & ->).
    apply (IH _ Hw); [|done]. rewrite lookup_insert_ne by done.
    by eapply makedirs_from_keeps.
Qed.

(** When the whole mapping was written, every entry is in the tree with its
    content (the keys of a dictionary are distinct). *)
Lemma write_files_present (fs : list (path * string)) (t t' : tree) (p : path) (txt : string) :
  write_files t fs = (t', None) → NoDup fs.*1 → (p, txt) ∈ fs →
  t' !! p = Some (File (Text txt)).
Proof.
  revert t. induction fs as [|[p0 txt0] fs IH]; intros t; simpl.
  - intros _ _ Hin. by apply elem_of_nil in Hin.
  - destruct (makedirs t (dirname p0)) as [t1 [e|]] eqn:Hmk; [done|].
    destruct (open_write t1 p0 (Text txt0)) as [t2 [e|]] eqn:Hop; [done|].
    intros Hw Hnd Hin. apply NoDup_cons in Hnd as [Hnotin Hnd].
    apply open_write_ok in Hop as (_ & _ & ->).
    apply elem_of_cons in Hin as [[= -> ->]|Hin].
    + apply (write_files_keeps _ _ _ _ _ Hw); [apply lookup_insert_eq|done].
    + by apply (IH _ Hw).
Qed.

(** ** Deploy *)

Lemma state_eq (s1 s2 : state) :
  apps s1 = apps s2 → static s1 = static s2 → backups s1 = backups s2 →
  domains s1 = domains s2 → s1 = s2.
Proof. destruct s1, s2; simpl; by intros -> -> -> ->. Qed.

Lemma set_apps_insert_insert (app_id : string) (t1 t2 : tree) (s : state) :
  set_apps (<[app_id := t2]>) (set_apps (<[app_id := t1]>) s) = set_apps (<[app_id := t2]>) s.
Proof. apply state_eq; simpl; try done. apply insert_insert_eq. Qed.

Lemma set_apps_insert_id (app_id : string) (t : tree) (s : state) :
  apps s !! app_id = Some t → set_apps (<[app_id := t]>) s = s.
Proof. intros H. apply state_eq; simpl; try done. by apply insert_id. Qed.

(** [rmtree] when present, then [makedirs]: the source directory is empty. *)
Lemma fresh_app_dir {A : Type} (app_id : string) (rest : io A) (s : state) :
  (app_dir_exists ← exists_app app_id;
   (if app_dir_exists : bool then rmtree_app app_id else mret tt);;
   makedirs_app app_id;; rest) s
  = rest (set_apps (<[app_id := ∅]>) s).
Proof.
  unfold_io. destruct (apps s !! app_id) eqn:Ha; simpl.
  - rewrite lookup_delete_eq. f_equal. apply state_eq; simpl; try done.
    apply insert_delete_eq.
  - by rewrite Ha.
Qed.

Lemma in_app_dir_bind {A : Type} (app_id : string) (f : tree → tree * option exn)
    (rest : io A) (t : tree) (s : state) :
  apps s !! app_id = Some t →
  (in_app_dir app_id f;; rest) s
  = match f t with
    | (t', Some e) => (Raised e, set_apps (<[app_id := t']>) s)
    | (t', None) => rest (set_apps (<[app_id := t']>) s)
    end.
Proof.
  intros Ht. unfold_io. rewrite Ht. by destruct (f t) as [t' [e|]].
Qed.

(** [rmtree] when present, then [copytree] of the source directory. *)
Lemma publish_source {A : Type} (app_id : string) (rest : io A) (t : tree) (s : state) :
  apps s !! app_id = Some t →
  (static_dir_exists ← exists_static app_id;
   (if static_dir_exists : bool then rmtree_static app_id else mret tt);;
   copytree_to_static (app_tree app_id) app_id;; rest) s
  = rest (set_static (<[app_id := t]>) s).
Proof.
  intros Ht. unfold_io. destruct (static s !! app_id) eqn:Hs; simpl.
  - rewrite Ht, lookup_delete_eq. f_equal. apply state_eq; simpl; try done.
    apply insert_delete_eq.
  - by rewrite Ht, Hs.
Qed.

Lemma open_write_metadata (t : tree) (cfg : deployment) :
  open_write t deployment_json (Metadata cfg)
  = match t !! deployment_json with
    | Some Dir => (t, Some IsADirectoryError)
    | _ => (<[deployment_json := File (Metadata cfg)]> t, None)
    end.
Proof. done. Qed.

Section DeployFacts.

Variable subprocess_run : list string → tree → Z → outcome completed_process * tree.

(** The stages of [deploy_app] in the order the code runs them: the source
    tree is written from an empty directory, the record is saved inside it,
    and only then the tree is published, or built and published. *)
Lemma deploy_app_eq (data : app_data) (uuid4 now : string) (s : state) :
  let app_id := app_id_of data uuid4 in
  let cfg := deployment_config_of data uuid4 now in
  deploy_app subprocess_run data uuid4 now s =
  match write_files ∅ (default [] (ad_files data)) with
  | (t, Some e) => (Failure (Str e), set_apps (<[app_id := t]>) s)
  | (t, None) =>
      match t !! deployment_json with
      | Some Dir => (Failure (Str IsADirectoryError), set_apps (<[app_id := t]>) s)
      | _ =>
          let t' := <[deployment_json := File (Metadata cfg)]> t in
          let s1 := set_apps (<[app_id := t']>) s in
          if decide (d_app_type cfg ∈ ["static"; "simple_website"]) then
            (Success cfg, set_static (<[app_id := t']>) s1)
          else if decide (d_app_type cfg = "react_app") then
            match _build_react_app subprocess_run app_id s1 with
            | (Failure err, s2) => (Failure err, s2)
            | (Success b, s2) => (Success (update_with_build cfg b), s2)
            end
          else (Success cfg, s1)
      end
  end.
Proof.
  intros app_id cfg. unfold deploy_app, try_except.
  fold app_id. fold cfg.
  set (files := default [] (ad_files data)).
  change (default "static" (ad_app_type data)) with (d_app_type cfg).
  set (ty := d_app_type cfg). clearbody ty.
  rewrite fresh_app_dir.
  rewrite (in_app_dir_bind _ _ _ ∅) by apply lookup_insert_eq.
  destruct (write_files ∅ files) as [t [e|]] eqn:Hw;
    rewrite set_apps_insert_insert; [done|].
  unfold _save_deployment_metadata.
  rewrite (in_app_dir_bind _ _ _ t) by apply lookup_insert_eq.
  rewrite open_write_metadata.
  assert (Hgo : ∀ t' : tree,
    (let (o, s') :=
       (if decide (ty ∈ ["static"; "simple_website"])
        then static_dir_exists ← exists_static app_id;
             (if static_dir_exists : bool then rmtree_static app_id else mret tt);;
             copytree_to_static (app_tree app_id) app_id;;
             mret (Success cfg)
        else if decide (ty = "react_app")
             then build_result ← lift (_build_react_app subprocess_run app_id);
                  match build_result with
                  | Success b => mret (Success (update_with_build cfg b))
                  | Failure err => mret (Failure err)
                  end
             else mret (Success cfg)) (set_apps (<[app_id := t']>) s) in
     match o with
     | Returned a => (a, s')
     | Raised e => (Failure (Str e), s')
     end)
    = if decide (ty ∈ ["static"; "simple_website"]) then
        (Success cfg, set_static (<[app_id := t']>) (set_apps (<[app_id := t']>) s))
      else if decide (ty = "react_app") then
        match _build_react_app subprocess_run app_id (set_apps (<[app_id := t']>) s) with
        | (Failure err, s2) => (Failure err, s2)
        | (Success b, s2) => (Success (update_with_build cfg b), s2)
        end
      else (Success cfg, set_apps (<[app_id := t']>) s)).
  { intros t'. destruct (decide (ty ∈ ["static"; "simple_website"])).
    - rewrite (publish_source _ _ t') by apply lookup_insert_eq. done.
    - destruct (decide (ty = "react_app")); [|done]. unfold_io.
      by destruct (_build_react_app subprocess_run app_id _) as [[b|err] s2]. }
  destruct (t !! deployment_json) as [[|c]|];
    rewrite set_apps_insert_insert; [done|apply Hgo..].
Qed.

End DeployFacts.

(** ** Build Executor *)

Lemma strip_prefix_Some (pre p r : path) :
  strip_prefix pre p = Some r ↔ p = pre ++ r ∧ r ≠ [].
Proof.
  revert p. induction pre as [|a pre IH]; intros p; simpl.
  - destruct p as [|b p]; split.
    + done.
    + by intros [<- ?].
    + by intros [= <-].
    + by intros [<- _].
  - destruct p as [|b p]; [split; [done|by intros [? _]]|].
    destruct (decide (a = b)) as [->|Hne].
    + rewrite IH. split; [by intros [-> ?]|]. by intros [[= ->] ?].
    + split; [done|]. by intros [[= <-] _].
Qed.

Lemma subtree_entries_NoDup (pre : path) (l : list (path * node)) :
  NoDup l.*1 →
  NoDup (omap (λ kv : path * node, (λ r, (r, kv.2)) <$> strip_prefix pre kv.1) l).*1.
Proof.
  induction l as [|[k n] l IH]; simpl; [constructor|].
  intros [Hk Hnd]%NoDup_cons. destruct (strip_prefix pre k) as [r|] eqn:Hr; simpl; [|by apply IH].
  apply NoDup_cons. split; [|by apply IH].
  intros ([r' n'] & -> & ([k' n''] & Hin & Hg)%list_elem_of_omap)%list_elem_of_fmap.
  simpl in Hg. destruct (strip_prefix pre k') as [r''|] eqn:Hr'; [|done].
  injection Hg as -> ->. apply strip_prefix_Some in Hr as [-> _].
  apply strip_prefix_Some in Hr' as [-> _].
  apply Hk, list_elem_of_fmap. by exists (pre ++ r', n').
Qed.

(** The copied directory holds, under each relative path, what the source
    holds under the directory's path followed by it. *)
Lemma lookup_subtree (t : tree) (pre r : path) :
  r ≠ [] → subtree t pre !! r = t !! (pre ++ r).
Proof.
  intros Hr. apply option_eq. intros n. unfold subtree.
  rewrite <- elem_of_list_to_map by apply subtree_entries_NoDup, NoDup_fst_map_to_list.
  rewrite list_elem_of_omap. split.
  - intros ([k n'] & Hin%elem_of_map_to_list & Hg). simpl in Hg.
    destruct (strip_prefix pre k) as [r'|] eqn:Hr'; [|done].
    injection Hg as -> ->. by apply strip_prefix_Some in Hr' as [-> _].
  - intros Hl. exists (pre ++ r, n). split; [by apply elem_of_map_to_list|]. simpl.
    assert (strip_prefix pre (pre ++ r) = Some r) as -> by by apply strip_prefix_Some.
    done.
Qed.

Section BuildFacts.

Variable subprocess_run : list string → tree → Z → outcome completed_process * tree.

Lemma run_bind {A : Type} (cmd : list string) (app_id : string) (timeout : Z)
    (k : completed_process → io A) (t : tree) (s : state) :
  apps s !! app_id = Some t →
  (run subprocess_run cmd app_id timeout ≫= k) s
  = match (subprocess_run cmd t timeout).1 with
    | Returned p => k p (set_apps (<[app_id := (subprocess_run cmd t timeout).2]>) s)
    | Raised e => (Raised e, set_apps (<[app_id := (subprocess_run cmd t timeout).2]>) s)
    end.
Proof.
  intros Ht. unfold run. unfold_io. rewrite Ht.
  by destruct (subprocess_run cmd t timeout) as [[p|e] t'].
Qed.

(** The publication at the end of [_build_react_app]: the published tree is
    removed first, then "build" is looked for, then "dist". *)
Lemma publish_build_output (app_id : string) (built : result build_success)
    (t : tree) (s : state) :
  apps s !! app_id = Some t →
  (static_dir_exists ← exists_static app_id;
   (if static_dir_exists : bool then rmtree_static app_id else mret tt);;
   build_dir_exists ← exists_in_app app_id ["build"];
   if build_dir_exists : bool then
     copytree_to_static (build_dir_tree app_id ["build"]) app_id;;
     mret built
   else
     dist_dir_exists ← exists_in_app app_id ["dist"];
     if dist_dir_exists : bool then
       copytree_to_static (build_dir_tree app_id ["dist"]) app_id;;
       mret built
     else
       mret (Failure (Message "Build directory not found"))) s
  = match t !! ["build"] with
    | Some Dir => (Returned built, set_static (<[app_id := subtree t ["build"]]>) s)
    | Some (File _) => (Raised NotADirectoryError, set_static (delete app_id) s)
    | None =>
        match t !! ["dist"] with
        | Some Dir => (Returned built, set_static (<[app_id := subtree t ["dist"]]>) s)
        | Some (File _) => (Raised NotADirectoryError, set_static (delete app_id) s)
        | None => (Returned (Failure (Message "Build directory not found")),
                   set_static (delete app_id) s)
        end
    end.
Proof.
  intros Ht.
  transitivity
    ((build_dir_exists ← exists_in_app app_id ["build"];
      if build_dir_exists : bool then
        copytree_to_static (build_dir_tree app_id ["build"]) app_id;;
        mret built
      else
        dist_dir_exists ← exists_in_app app_id ["dist"];
        if dist_dir_exists : bool then
          copytree_to_static (build_dir_tree app_id ["dist"]) app_id;;
          mret built
        else
          mret (Failure (Message "Build directory not found")))
       (set_static (delete app_id) s)).
  { unfold exists_static at 1. unfold mbind at 1, io_bind at 1, bind at 1.
    destruct (static s !! app_id) eqn:Hst; [done|].
    unfold mret at 1, io_ret at 1, ret at 1. unfold mbind at 1, io_bind at 1, bind at 1.
    f_equal. apply state_eq; simpl; try done. symmetry. by apply delete_id. }
  assert (∀ t', set_static (<[app_id := t']>) (set_static (delete app_id) s)
                = set_static (<[app_id := t']>) s) as Hins.
  { intros t'. apply state_eq; simpl; try done. apply insert_delete_eq. }
  unfold_io. unfold build_dir_tree, read_dir, path_exists, lookup_node. simpl.
  rewrite Ht.
  destruct (t !! ["build"]) as [[|c]|] eqn:Hb; simpl;
    rewrite ?Ht; simpl; rewrite ?Hb, ?lookup_delete_eq; simpl; rewrite ?Hins; try done.
  destruct (t !! ["dist"]) as [[|c]|] eqn:Hd; simpl;
    rewrite ?Ht; simpl; rewrite ?Hd, ?lookup_delete_eq; simpl; by rewrite ?Hins.
Qed.


Lemma _build_react_app_eq (app_id : string) (t : tree) (s : state) :
  apps s !! app_id = Some t →
  let install := subprocess_run ["npm"; "install"] t 300 in
  let build := subprocess_run ["npm"; "run"; "build"] install.2 300 in
  let s1 := set_apps (<[app_id := install.2]>) s in
  let s2 := set_apps (<[app_id := build.2]>) s in
  _build_react_app subprocess_run app_id s =
  match install.1 with
  | Raised e => (build_except e, s1)
  | Returned p1 =>
      if decide (returncode p1 ≠ 0%Z) then
        (Failure (Message ("Failed to install dependencies: " +:+ stderr p1)), s1)
      else
        match build.1 with
        | Raised e => (build_except e, s2)
        | Returned p2 =>
            if decide (returncode p2 ≠ 0%Z) then
              (Failure (Message ("Failed to build app: " +:+ stderr p2)), s2)
            else
              let built := {| build_output := stdout p2;
                              static_dir := static_dir_of app_id |} in
              match build.2 !! ["build"] with
              | Some Dir =>
                  (Success built, set_static (<[app_id := subtree build.2 ["build"]]>) s2)
              | Some (File _) =>
                  (Failure (Str NotADirectoryError), set_static (delete app_id) s2)
              | None =>
                  match build.2 !! ["dist"] with
                  | Some Dir =>
                      (Success built, set_static (<[app_id := subtree build.2 ["dist"]]>) s2)
                  | Some (File _) =>
                      (Failure (Str NotADirectoryError), set_static (delete app_id) s2)
                  | None =>
                      (Failure (Message "Build directory not found"),
                       set_static (delete app_id) s2)
                  end
              end
        end
  end.
Proof.
  intros Ht install build s1 s2. unfold _build_react_app, try_except.
  rewrite (run_bind _ _ _ _ t) by done. fold install. fold s1.
  destruct (install.1) as [p1|e]; [|done].
  destruct (decide (returncode p1 ≠ 0%Z)); [done|].
  rewrite (run_bind _ _ _ _ install.2) by apply lookup_insert_eq. fold build.
  unfold s1. rewrite set_apps_insert_insert. fold s2.
  destruct (build.1) as [p2|e]; [|done].
  destruct (decide (returncode p2 ≠ 0%Z)); [done|].
  rewrite (publish_build_output _ _ build.2) by apply lookup_insert_eq.
  destruct (build.2 !! ["build"]) as [[|c]|]; [done..|].
  by destruct (build.2 !! ["dist"]) as [[|c]|].
Qed.




End BuildFacts.




(** Redeploying a published application as a React application whose build
    writes no output directory: the deploy fails and the application is no
    longer served. *)
Example redeploy_without_output :
  let out := deploy_app npm_silent react_site "u" "t1" x1_deployed in
  out.1 = Failure (Message "Build directory not found")
  ∧ serve_deployed_app out.2 "x1" index_html = NotFound "App not found".
Proof. split; vm_compute; reflexivity. Qed.

(** ** Order of the deploy stages *)

Section StageOrder.

Variable subprocess_run : list string → tree → Z → outcome completed_process * tree.

Lemma build_keeps_backups (app_id : string) (s : state) :
  backups (_build_react_app subprocess_run app_id s).2 = backups s
  ∧ domains (_build_react_app subprocess_run app_id s).2 = domains s.
Proof.
  destruct (apps s !! app_id) as [t|] eqn:Ht.
  - rewrite (_build_react_app_eq _ _ _ _ Ht).
    repeat (case_match; simpl; try done).
  - unfold _build_react_app, try_except, run. unfold_io. by rewrite Ht.
Qed.

(** The source directory after a build is what the last step that ran left
    there. *)
Lemma build_source_tree (app_id : string) (t : tree) (s : state) :
  apps s !! app_id = Some t →
  let install := subprocess_run ["npm"; "install"] t 300 in
  let build := subprocess_run ["npm"; "run"; "build"] install.2 300 in
  apps (_build_react_app subprocess_run app_id s).2 !! app_id = Some install.2
  ∨ apps (_build_react_app subprocess_run app_id s).2 !! app_id = Some build.2.
Proof.
  intros Ht install build. rewrite (_build_react_app_eq _ _ _ _ Ht).
  fold install. fold build.
  destruct (install.1) as [p1|e]; [|left; apply lookup_insert_eq].
  destruct (decide (returncode p1 ≠ 0%Z)); [left; apply lookup_insert_eq|].
  right. destruct (build.1) as [p2|e]; [|apply lookup_insert_eq].
  destruct (decide (returncode p2 ≠ 0%Z)); [apply lookup_insert_eq|].
  destruct (build.2 !! ["build"]) as [[|c]|]; [apply lookup_insert_eq..|].
  destruct (build.2 !! ["dist"]) as [[|c]|]; apply lookup_insert_eq.
Qed.

(** A build tool that leaves deployment.json alone leaves the record. *)
Lemma build_keeps_record (app_id : string) (s : state) :
  (∀ cmd t timeout,
     (subprocess_run cmd t timeout).2 !! deployment_json = t !! deployment_json) →
  get_deployment_info (_build_react_app subprocess_run app_id s).2 app_id
  = get_deployment_info s app_id.
Proof.
  intros Hkeep. destruct (apps s !! app_id) as [t|] eqn:Ht.
  - unfold get_deployment_info. rewrite Ht.
    destruct (build_source_tree _ _ _ Ht) as [-> | ->]; by rewrite !Hkeep.
  - unfold _build_react_app, try_except, run. unfold_io. by rewrite Ht.
Qed.


End StageOrder.



(** ** Redeploy *)

Section Redeploy.

Variable subprocess_run : list string → tree → Z → outcome completed_process * tree.


End Redeploy.



(** ** Update *)

Lemma backup_deployment_eq (app_id stamp now : string) (s : state) :
  backup_deployment app_id stamp now s
  = match apps s !! app_id with
    | None => (Failure (Message "Deployment not found"), s)
    | Some t =>
        match backups s !! (app_id +:+ "_backup_" +:+ stamp) with
        | Some _ => (Failure (Str FileExistsError), s)
        | None =>
            (Success {| backup_path := backup_path_of (app_id +:+ "_backup_" +:+ stamp);
                        backup_filename := app_id +:+ "_backup_" +:+ stamp;
                        created_at := now |},
             set_backups (<[app_id +:+ "_backup_" +:+ stamp := t]>) s)
        end
    end.
Proof.
  unfold backup_deployment. unfold_io.
  destruct (apps s !! app_id) as [t|] eqn:Ha; simpl; [|done].
  rewrite Ha.
  by destruct (backups s !! (app_id +:+ "_backup_" +:+ stamp)).
Qed.

Lemma backup_failure_changes_nothing (app_id stamp now : string) (s s1 : state) (err : error) :
  backup_deployment app_id stamp now s = (Failure err, s1) → s1 = s.
Proof.
  rewrite backup_deployment_eq.
  destruct (apps s !! app_id) as [t|]; [|by intros [= _ <-]].
  destruct (backups s !! (app_id +:+ "_backup_" +:+ stamp)); [by intros [= _ <-]|done].
Qed.

Section Update.

Variable subprocess_run : list string → tree → Z → outcome completed_process * tree.

Lemma update_deployment_eq (app_id : string) (data : app_data)
    (stamp backup_now uuid4 deploy_now update_now : string) (s : state) :
  update_deployment subprocess_run app_id data stamp backup_now uuid4 deploy_now update_now s
  = match get_deployment_info s app_id with
    | None => (Failure (Message "Deployment not found"), s)
    | Some _ =>
        match backup_deployment app_id stamp backup_now s with
        | (Failure err, s1) => (Failure err, s1)
        | (Success b, s1) =>
            try_except
              (update_after_backup subprocess_run app_id data b uuid4 deploy_now update_now)
              (λ e, Failure (Str e)) s1
        end
    end.
Proof.
  unfold update_deployment, try_except, mbind, io_bind, bind, get_state, lift, mret,
    io_ret, ret.
  destruct (get_deployment_info s app_id); [|done].
  by destruct (backup_deployment app_id stamp backup_now s) as [[b|err] s1].
Qed.

Lemma deploy_app_keeps_backups (data : app_data) (uuid4 now : string) (s : state) :
  backups (deploy_app subprocess_run data uuid4 now s).2 = backups s
  ∧ domains (deploy_app subprocess_run data uuid4 now s).2 = domains s.
Proof.
  rewrite deploy_app_eq.
  destruct (write_files ∅ (default [] (ad_files data))) as [t [e|]]; [done|].
  assert (∀ s1 : state, backups s1 = backups s → domains s1 = domains s →
    backups (match _build_react_app subprocess_run (app_id_of data uuid4) s1 with
             | (Failure err, s2) => (Failure err, s2)
             | (Success b, s2) =>
                 (Success (update_with_build (deployment_config_of data uuid4 now) b), s2)
             end).2 = backups s
    ∧ domains (match _build_react_app subprocess_run (app_id_of data uuid4) s1 with
               | (Failure err, s2) => (Failure err, s2)
               | (Success b, s2) =>
                   (Success (update_with_build (deployment_config_of data uuid4 now) b), s2)
               end).2 = domains s) as Hbuild.
  { intros s1 Hb Hd.
    destruct (build_keeps_backups subprocess_run (app_id_of data uuid4) s1) as [Hb' Hd'].
    destruct (_build_react_app subprocess_run (app_id_of data uuid4) s1) as [[b|err] s2];
      simpl in *; by rewrite Hb', Hd'. }
  destruct (t !! deployment_json) as [[|c]|]; [done|..];
    (destruct (decide (_ ∈ _)); [done|]; destruct (decide (_ = _)); [|done];
     by apply Hbuild).
Qed.

Lemma update_after_backup_keeps_backups (app_id : string) (data : app_data) (b : backup_info)
    (uuid4 deploy_now update_now : string) (s : state) :
  backups (try_except
             (update_after_backup subprocess_run app_id data b uuid4 deploy_now update_now)
             (λ e, Failure (Str e)) s).2 = backups s.
Proof.
  unfold update_after_backup, try_except, mbind, io_bind, bind, lift, mret, io_ret, ret.
  set (data' := {| ad_app_id := Some app_id; ad_app_name := ad_app_name data;
                   ad_app_type := ad_app_type data; ad_files := ad_files data |}).
  destruct (deploy_app_keeps_backups data' uuid4 deploy_now s) as [Hb _].
  destruct (deploy_app subprocess_run data' uuid4 deploy_now s) as [[cfg|err] s2];
    simpl in *; [|done].
  unfold _save_deployment_metadata, in_app_dir.
  destruct (apps s2 !! app_id) as [t2|]; [|done].
  by destruct (open_write t2 deployment_json _) as [t' [e|]].
Qed.



End Update.




(** * Further properties of the code *)

(** ** Domain Registry: custom domains, frames and the uniqueness invariant *)

Lemma register_custom_domain_eq (app_id custom_domain now : string) (s : state) :
  register_custom_domain app_id custom_domain now s
  = (Success {| dns_type := "CNAME"; dns_name := custom_domain;
                dns_value := app_id +:+ "." +:+ base_domain |},
     set_domains (<[app_id :=
       let old := default empty_binding (domains s !! app_id) in
       {| b_subdomain := b_subdomain old;
          b_full_domain := b_full_domain old;
          b_registered_at := b_registered_at old;
          b_type := b_type old;
          b_custom_domain := Some custom_domain;
          b_custom_domain_registered_at := Some now;
          b_custom_domain_verified := Some false |}]>) s).
Proof. done. Qed.

(** [register_custom_domain] always succeeds; it keeps the subdomain keys of
    the application's binding, sets the three custom-domain keys (verified
    false), returns a CNAME instruction towards app_id.sebaircode.com, and
    changes no other binding and no tree. *)
Theorem register_custom_domain_keeps_subdomain
    (s : state) (app_id custom_domain now : string) :
  let out := register_custom_domain app_id custom_domain now s in
  let old := default empty_binding (domains s !! app_id) in
  out.1 = Success {| dns_type := "CNAME"; dns_name := custom_domain;
                     dns_value := app_id +:+ ".sebaircode.com" |}
  ∧ get_domain_info out.2 app_id
    = Some {| b_subdomain := b_subdomain old;
              b_full_domain := b_full_domain old;
              b_registered_at := b_registered_at old;
              b_type := b_type old;
              b_custom_domain := Some custom_domain;
              b_custom_domain_registered_at := Some now;
              b_custom_domain_verified := Some false |}
  ∧ (∀ other, other ≠ app_id → get_domain_info out.2 other = get_domain_info s other)
  ∧ (∀ subdomain,
       subdomain_taken (domains out.2) subdomain = subdomain_taken (domains s) subdomain)
  ∧ apps out.2 = apps s ∧ static out.2 = static s ∧ backups out.2 = backups s.
Proof.
  intros out old. unfold out. rewrite register_custom_domain_eq.
  unfold get_domain_info. simpl. fold old.
  split; [done|]. split; [apply lookup_insert_eq|].
  split; [by intros other Hne; apply lookup_insert_ne|].
  split; [|done].
  intros subdomain.
  destruct (subdomain_taken (domains s) subdomain) eqn:Hs.
  - apply subdomain_taken_spec in Hs as (id & b & Hl & Hb).
    apply subdomain_taken_spec. destruct (decide (id = app_id)) as [->|Hne].
    + eexists app_id, _. split; [apply lookup_insert_eq|]. simpl.
      unfold old. by rewrite Hl.
    + exists id, b. split; [by rewrite lookup_insert_ne|done].
  - apply subdomain_taken_false. apply subdomain_taken_false in Hs.
    intros (id & b & Hl & Hb). apply Hs.
    apply lookup_insert_Some in Hl as [[<- <-]|[Hne Hl]].
    + simpl in Hb. unfold old in Hb.
      destruct (domains s !! app_id) as [b0|] eqn:Hb0; [|done].
      by exists app_id, b0.
    + by exists id, b.
Qed.

(** Nothing makes custom domains unique: two different applications can
    register the same custom domain, and both bindings then hold it. *)
Theorem custom_domain_not_exclusive
    (s : state) (app1 app2 custom_domain now1 now2 : string) :
  app1 ≠ app2 →
  let s1 := (register_custom_domain app1 custom_domain now1 s).2 in
  let out := register_custom_domain app2 custom_domain now2 s1 in
  (∃ dns, out.1 = Success dns)
  ∧ (get_domain_info out.2 app1 ≫= b_custom_domain) = Some custom_domain
  ∧ (get_domain_info out.2 app2 ≫= b_custom_domain) = Some custom_domain.
Proof.
  intros Hne s1 out. unfold out, s1. rewrite !register_custom_domain_eq.
  unfold get_domain_info. simpl. split; [by eexists|].
  rewrite lookup_insert_ne by done. by rewrite !lookup_insert_eq.
Qed.

Lemma custom_domain_not_exclusive_witness :
  let s := (register_custom_domain "b" "www.example.org" "t1"
              (register_custom_domain "a" "www.example.org" "t0" empty_state).2).2 in
  (get_domain_info s "a" ≫= b_custom_domain) = Some "www.example.org"
  ∧ (get_domain_info s "b" ≫= b_custom_domain) = Some "www.example.org".
Proof.
  apply (custom_domain_not_exclusive empty_state "a" "b" "www.example.org" "t0" "t1").
  done.
Defined.

(** A failed [register_subdomain] changes nothing; a successful one changes
    the caller's binding only, and no tree. *)
Theorem register_subdomain_frame (s : state) (app_id subdomain now : string) :
  let out := register_subdomain app_id subdomain now s in
  (∀ err, out.1 = Failure err → out.2 = s)
  ∧ (∀ other, other ≠ app_id → get_domain_info out.2 other = get_domain_info s other)
  ∧ apps out.2 = apps s ∧ static out.2 = static s ∧ backups out.2 = backups s.
Proof.
  intros out. unfold out. rewrite register_subdomain_eq. unfold get_domain_info.
  destruct (subdomain_taken (domains s) subdomain); simpl; [done|].
  split; [done|]. split; [|done]. intros other Hne. by apply lookup_insert_ne.
Qed.

(** The store keeps the invariant that at most one binding holds a given
    subdomain value, under both registrations. *)
Theorem subdomains_stay_unique (s : state) (app_id name now : string) :
  subdomains_unique (domains s) →
  subdomains_unique (domains (register_subdomain app_id name now s).2)
  ∧ subdomains_unique (domains (register_custom_domain app_id name now s).2).
Proof.
  intros Huniq. split.
  - rewrite register_subdomain_eq.
    destruct (subdomain_taken (domains s) name) eqn:Htaken; [done|].
    apply subdomain_taken_false in Htaken. simpl.
    intros id1 id2 b1 b2 sub H1 H2 Hs1 Hs2.
    apply lookup_insert_Some in H1 as [[<- <-]|[Hne1 H1]];
      apply lookup_insert_Some in H2 as [[<- <-]|[Hne2 H2]].
    + done.
    + simpl in Hs1. injection Hs1 as <-. destruct Htaken. by exists id2, b2.
    + simpl in Hs2. injection Hs2 as <-. destruct Htaken. by exists id1, b1.
    + by eapply Huniq.
  - rewrite register_custom_domain_eq. simpl.
    intros id1 id2 b1 b2 sub H1 H2 Hs1 Hs2.
    apply lookup_insert_Some in H1 as [[<- <-]|[Hne1 H1]];
      apply lookup_insert_Some in H2 as [[<- <-]|[Hne2 H2]].
    + done.
    + simpl in Hs1. destruct (domains s !! app_id) as [b0|] eqn:Hb0; [|done].
      by eapply Huniq.
    + simpl in Hs2. destruct (domains s !! app_id) as [b0|] eqn:Hb0; [|done].
      by eapply Huniq.
    + by eapply Huniq.
Qed.

Lemma subdomains_stay_unique_witness :
  subdomains_unique (domains (register_subdomain "a" "shop" "t0" empty_state).2).
Proof.
  apply (subdomains_stay_unique empty_state "a" "shop" "t0").
  intros id1 id2 b1 b2 sub H1. simpl in H1. by rewrite lookup_empty in H1.
Defined.

Lemma subdomains_unique_singleton (app_id : string) (b : binding) :
  subdomains_unique (<[app_id := b]> ∅).
Proof.
  intros id1 id2 b1 b2 sub [[<- _]|[_ H1]]%lookup_insert_Some
    [[<- _]|[_ H2]]%lookup_insert_Some; by rewrite ?lookup_empty in *.
Qed.

(** An application that registers a new, free subdomain gives up the one it
    held: afterwards any application can register the old name. *)
Theorem register_subdomain_releases_old
    (s : state) (app_id old_name new_name now : string) (b : binding) :
  subdomains_unique (domains s) →
  domains s !! app_id = Some b → b_subdomain b = Some old_name →
  old_name ≠ new_name →
  subdomain_taken (domains s) new_name = false →
  let s1 := (register_subdomain app_id new_name now s).2 in
  (get_domain_info s1 app_id ≫= b_subdomain) = Some new_name
  ∧ ∀ other now2,
      (register_subdomain other old_name now2 s1).1
      = Success (old_name +:+ "." +:+ base_domain, old_name).
Proof.
  intros Huniq Hb Hold Hne Hfree s1. unfold s1.
  rewrite register_subdomain_eq, Hfree. unfold get_domain_info. simpl.
  split; [by rewrite lookup_insert_eq|].
  intros other now2. rewrite register_subdomain_eq.
  match goal with |- (if ?c then _ else _).1 = _ => assert (c = false) as ->; [|done] end.
  apply subdomain_taken_false. simpl. intros (id & b' & Hl & Hsub).
  apply lookup_insert_Some in Hl as [[<- <-]|[Hne' Hl]].
  - simpl in Hsub. congruence.
  - apply Hne'. symmetry. by eapply Huniq.
Qed.

Lemma register_subdomain_releases_old_witness :
  let s := (register_subdomain "a" "shop" "t0" empty_state).2 in
  let s1 := (register_subdomain "a" "store" "t1" s).2 in
  (register_subdomain "b" "shop" "t2" s1).1 = Success ("shop.sebaircode.com", "shop").
Proof.
  intros s s1.
  assert (subdomains_unique (domains s)) as Huniq by apply subdomains_unique_singleton.
  pose (b := default empty_binding (domains s !! "a")).
  apply (proj2 (register_subdomain_releases_old s "a" "shop" "store" "t1" b
                  Huniq eq_refl eq_refl ltac:(done) eq_refl)).
Defined.

(** ** Domain routes *)

(** POST /domain/subdomain answers 400 and changes nothing when app_id or
    subdomain is absent or empty.  With both present the status is 200
    whatever the registration returns: a taken subdomain is reported in the
    body only. *)
Theorem register_subdomain_route_status
    (s : state) (app_id subdomain : option string) (now : string) :
  let out := register_subdomain_route app_id subdomain now s in
  (missing app_id || missing subdomain = true →
   out = ({| status := 400;
             body := Failure (Message "app_id and subdomain are required") |}, s))
  ∧ (∀ a d, app_id = Some a → subdomain = Some d → a ≠ "" → d ≠ "" →
     status out.1 = 200
     ∧ (body out.1, out.2) = register_subdomain a d now s
     ∧ (subdomain_taken (domains s) d = true →
        body out.1 = Failure (Message "Subdomain already taken") ∧ out.2 = s)).
Proof.
  intros out. unfold out, register_subdomain_route. split.
  - by intros ->.
  - intros a d -> -> Ha Hd. simpl. rewrite !bool_decide_eq_false_2 by done. simpl.
    rewrite register_subdomain_eq.
    destruct (subdomain_taken (domains s) d); simpl; [done|].
    split; [done|]. split; [done|]. done.
Qed.

Lemma register_subdomain_route_status_witness :
  let s := (register_subdomain "a" "shop" "t0" empty_state).2 in
  register_subdomain_route (Some "b") (Some "") "t1" s
  = ({| status := 400; body := Failure (Message "app_id and subdomain are required") |}, s)
  ∧ register_subdomain_route (Some "b") (Some "shop") "t1" s
    = ({| status := 200; body := Failure (Message "Subdomain already taken") |}, s).
Proof.
  intros s. split.
  - by apply (proj1 (register_subdomain_route_status s (Some "b") (Some "") "t1")).
  - destruct (proj2 (register_subdomain_route_status s (Some "b") (Some "shop") "t1")
                "b" "shop" eq_refl eq_refl ltac:(done) ltac:(done)) as (Hst & _ & Htaken).
    destruct (Htaken eq_refl) as [Hbody Hs].
    destruct (register_subdomain_route (Some "b") (Some "shop") "t1" s) as [[st bd] s'].
    simpl in *. by subst.
Defined.

(** GET /domain/info finds the binding that either registration has just
    stored, and answers 404 for an application that has no binding. *)
Theorem get_domain_info_route_round_trip (s : state) (app_id name now : string) :
  (∀ r s', register_subdomain app_id name now s = (Success r, s') →
     ∃ b, get_domain_info_route s' app_id = {| status := 200; body := Success b |}
          ∧ b_subdomain b = Some name
          ∧ b_full_domain b = Some (name +:+ ".sebaircode.com"))
  ∧ (∃ b, get_domain_info_route (register_custom_domain app_id name now s).2 app_id
          = {| status := 200; body := Success b |}
          ∧ b_custom_domain b = Some name
          ∧ b_custom_domain_verified b = Some false)
  ∧ (domains s !! app_id = None →
     get_domain_info_route s app_id
     = {| status := 404; body := Failure (Message "Domain not found") |}).
Proof.
  unfold get_domain_info_route, domain_info_of, get_domain_info. split; [|split].
  - intros r s'. rewrite register_subdomain_eq.
    destruct (subdomain_taken (domains s) name); [done|]. intros [= _ <-]. simpl.
    rewrite lookup_insert_eq. simpl. by eexists.
  - rewrite register_custom_domain_eq. simpl. rewrite lookup_insert_eq.
    destruct (default empty_binding (domains s !! app_id)) as [[?|] [?|] [?|] [?|] ? ? ?];
      simpl; by eexists.
  - by intros ->.
Qed.

Lemma get_domain_info_route_round_trip_witness :
  ∃ b, get_domain_info_route (register_subdomain "a" "shop" "t0" empty_state).2 "a"
       = {| status := 200; body := Success b |}
       ∧ b_subdomain b = Some "shop"
       ∧ b_full_domain b = Some "shop.sebaircode.com".
Proof.
  apply (proj1 (get_domain_info_route_round_trip empty_state "a" "shop" "t0")
           ("shop.sebaircode.com", "shop")).
  by vm_compute.
Defined.

(** ** Listing and the info route *)

Lemma delete_deployment_eq (app_id : string) (s : state) :
  delete_deployment app_id s
  = (Success "Deployment deleted successfully",
     set_static (delete app_id) (set_apps (delete app_id) s)).
Proof.
  unfold delete_deployment. unfold_io.
  destruct (apps s !! app_id) eqn:Ha; simpl;
    destruct (static s !! app_id) eqn:Hs; simpl; f_equal;
    apply state_eq; simpl; try done; symmetry; by apply delete_id.
Qed.

Lemma list_deployments_elem (s : state) (r : deployment) :
  r ∈ list_deployments s ↔ ∃ app_id, get_deployment_info s app_id = Some r.
Proof.
  unfold list_deployments. rewrite list_elem_of_omap. split.
  - intros (id & _ & Hr). by exists id.
  - intros (id & Hr). exists id. split; [|done].
    apply list_elem_of_fmap. unfold get_deployment_info in Hr.
    destruct (apps s !! id) as [t|] eqn:Ht; [|done].
    exists (id, t). split; [done|]. by apply elem_of_map_to_list.
Qed.





(** ** Backup and delete *)




